(** * xk6-disruptor: cluster client bootstrap and the pod disruptor facade

    A shallow embedding of
      - package [kubernetes] ([newWithContext], [NewFromConfig],
        [NewFromKubeconfig], [New], [checkK8sVersion], [Context]), and
      - package [disruptors], file [pkg/disruptors/pod.go]
        ([NewPodDisruptor], [InjectHTTPFaults], [InjectGrpcFaults], [Targets]).

    Both packages are glue code: what they compute is decided by the order
    in which they call their collaborators (client-go, the pod helper, the
    agent controller) and by what they do with the answers.  A Go function is
    therefore embedded as a finite tree of collaborator calls ([Go E R]); an
    execution is the run of such a tree against a handler that plays the
    collaborators ([run]), and it yields the Go return values, the final
    state of the outside world and the trace of calls that were made. *)

From stdpp Require Import base strings gmap list.
From Stdlib Require Import ZArith QArith.

Open Scope string_scope.
Open Scope Z_scope.

(** ** Go values *)

(** Go's [error] interface values that the two packages build or pass on.
    [Errorf] is [fmt.Errorf] without a wrapping verb, [Wrapf] is [fmt.Errorf]
    with [%w].  A nil [error] is [None] of [option error]. *)
Inductive error : Type :=
| Errorf (msg : string)
| Wrapf (msg : string) (cause : error).

(** Result of a client-go call of shape [(T, error)]: client-go returns
    either a usable value and a nil error, or an error. *)
Inductive result (T : Type) : Type :=
| Ok (v : T)
| Err (err : error).
Arguments Ok {T} v.
Arguments Err {T} err.

(** [time.Duration] is a signed 64-bit count of nanoseconds; the code under
    study only stores and compares durations. *)
Definition Duration : Type := Z.

(** A non-nil [context.Context]; a variable of interface type
    [context.Context] is an [option context_Context], nil being [None]. *)
Inductive context_Context : Type :=
| context_TODO
| context_Background
| context_WithValue (id : nat).

(** ** Programs that call collaborators *)

Section Effects.
Context {E : Type → Type}.

(** A Go function body over the collaborator calls [E]: it returns, or it
    calls a collaborator and continues with the answer. *)
Inductive Go (R : Type) : Type :=
| Ret (r : R)
| Call {X : Type} (e : E X) (k : X → Go R).
Global Arguments Ret {R} r.
Global Arguments Call {R X} e k.

Fixpoint bind {A B : Type} (k : A → Go B) (p : Go A) : Go B :=
  match p with
  | Ret a => k a
  | Call e k' => Call e (λ x, bind k (k' x))
  end.

Definition call {X : Type} (e : E X) : Go X := Call e Ret.

(** One call of a collaborator together with its answer. *)
Inductive Event : Type :=
| Ev {X : Type} (e : E X) (answer : X).

(** The collaborators, over a state [W] of the outside world. *)
Definition handler (W : Type) : Type := ∀ X : Type, E X → W → X * W.

(** An execution: Go return values, final world, calls in program order. *)
Fixpoint run {W R : Type} (h : handler W) (p : Go R) (w : W)
  : R * W * list Event :=
  match p with
  | Ret r => (r, w, [])
  | Call e k =>
      let '(x, w1) := h _ e w in
      let '(r, w2, tr) := run h (k x) w1 in
      (r, w2, Ev e x :: tr)
  end.

Definition returned {W R : Type} (x : R * W * list Event) : R := x.1.1.
Definition world {W R : Type} (x : R * W * list Event) : W := x.1.2.
Definition trace {W R : Type} (x : R * W * list Event) : list Event := x.2.
End Effects.

Arguments Go E R : clear implicits.
Arguments Event E : clear implicits.
Arguments handler E W : clear implicits.

Global Instance Go_ret {E} : MRet (Go E) := λ _ r, Ret r.
Global Instance Go_bind {E} : MBind (Go E) := λ _ _ k p, bind k p.

(** ** Package kubernetes *)

Module kubernetes.

(** [rest.Config], restricted to what the package reads or writes.  [QPS]
    is a [float32] in client-go; the package only stores the literal 100
    in it, which is exact. *)
Record rest_Config : Type := {
  Host : string;
  QPS : Q;
  Burst : Z;
}.

(** [version.Info] as [ServerVersion] reports it. *)
Record version_Info : Type := {
  Major : string;
  Minor : string;
}.

(** Handles returned by client-go; opaque to the package. *)
Record Clientset : Type := { clientset_config : rest_Config }.
Record DiscoveryClient : Type := { discovery_config : rest_Config }.

(** [Config]: the configuration for creating a Kubernetes instance. *)
Record Config : Type := {
  Config_Context : option context_Context;
  Kubeconfig : string;
}.

(** The struct [k8s].  Its [config] field is the [*rest.Config] that
    [newWithContext] has just written to. *)
Record k8s : Type := {
  config : rest_Config;
  Interface : Clientset;
  ctx : option context_Context;
}.

(** Calls that leave the package. *)
Inductive ClientE : Type → Type :=
| NewForConfig (c : rest_Config) : ClientE (result Clientset)
| NewDiscoveryClientForConfig (c : rest_Config) : ClientE (result DiscoveryClient)
| ServerVersion (d : DiscoveryClient) : ClientE (result version_Info)
| BuildConfigFromFlags (masterUrl kubeconfigPath : string) : ClientE (result rest_Config)
| InClusterConfig : ClientE (result rest_Config)
| getConfigPath : ClientE (result string).

(** [fmt.Sprintf("v%s.%s", version.Major, version.Minor)] *)
Definition semver (version : version_Info) : string :=
  "v" +:+ Major version +:+ "." +:+ Minor version.

(** Go's [<] on strings compares byte-wise, lexicographically. *)
Definition string_lt (a b : string) : bool := String.ltb a b.

Definition checkK8sVersion (config : rest_Config) : Go ClientE (option error) :=
  r ← call (NewDiscoveryClientForConfig config);
  match r with
  | Err err => mret (Some err)
  | Ok discoveryClient =>
      r ← call (ServerVersion discoveryClient);
      match r with
      | Err err => mret (Some err)
      | Ok version =>
          if string_lt (semver version) "v1.23"
          then mret (Some (Errorf
                 ("unsupported Kubernetes version. Expected >= v1.23 but actual is "
                  +:+ semver version)))
          else mret None
      end
  end.

Definition newWithContext (ctx : option context_Context) (config : rest_Config)
  : Go ClientE (option k8s * option error) :=
  let config := {| Host := Host config; QPS := 100; Burst := 150 |} in
  r ← call (NewForConfig config);
  match r with
  | Err err => mret (None, Some err)
  | Ok client =>
      err ← checkK8sVersion config;
      match err with
      | Some err => mret (None, Some err)
      | None =>
          let ctx := match ctx with
                     | None => Some context_TODO
                     | Some c => Some c
                     end in
          mret (Some {| config := config; Interface := client; ctx := ctx |}, None)
      end
  end.

Definition NewFromConfig (c : Config) : Go ClientE (option k8s * option error) :=
  r ← call (BuildConfigFromFlags "" (Kubeconfig c));
  match r with
  | Err err => mret (None, Some err)
  | Ok config => newWithContext (Config_Context c) config
  end.

Definition NewFromKubeconfig (kubeconfig : string)
  : Go ClientE (option k8s * option error) :=
  NewFromConfig {| Config_Context := None; Kubeconfig := kubeconfig |}.

Definition New (ctx : option context_Context)
  : Go ClientE (option k8s * option error) :=
  r ← call InClusterConfig;
  match r with
  | Err _ =>
      p ← call getConfigPath;
      match p with
      | Err getConfigErr =>
          mret (None, Some (Wrapf "error getting kubernetes config path: " getConfigErr))
      | Ok kubeConfigPath =>
          NewFromConfig {| Config_Context := ctx; Kubeconfig := kubeConfigPath |}
      end
  | Ok k8sConfig => newWithContext ctx k8sConfig
  end.

(** Method [Context] of [*k8s]. *)
Definition Context (k : k8s) : option context_Context := ctx k.

(** The four ways the package hands out a Kubernetes instance. *)
Inductive Constructor : Type :=
| via_New (ctx : option context_Context)
| via_NewFromConfig (c : Config)
| via_NewFromKubeconfig (kubeconfig : string)
| via_newWithContext (ctx : option context_Context) (config : rest_Config).

Definition construct (c : Constructor) : Go ClientE (option k8s * option error) :=
  match c with
  | via_New ctx => New ctx
  | via_NewFromConfig c => NewFromConfig c
  | via_NewFromKubeconfig kubeconfig => NewFromKubeconfig kubeconfig
  | via_newWithContext ctx config => newWithContext ctx config
  end.

(** [helpers.NewHelper] belongs to a package outside these files.  The
    two methods below call it with the context, the client, the
    configuration and a namespace; a helper is kept as what it was made
    from. *)
Record helpers_Helpers : Type := {
  helpers_ctx : option context_Context;
  helpers_client : Clientset;
  helpers_config : rest_Config;
  helpers_namespace : string;
}.

Definition helpers_NewHelper (ctx : option context_Context) (client : Clientset)
    (config : rest_Config) (namespace : string) : helpers_Helpers :=
  {| helpers_ctx := ctx; helpers_client := client; helpers_config := config;
     helpers_namespace := namespace |}.

(** Method [Helpers] of [*k8s]: helpers for the default namespace. *)
Definition Helpers (k : k8s) : helpers_Helpers :=
  helpers_NewHelper (ctx k) (Interface k) (config k) "default".

(** Method [NamespacedHelpers] of [*k8s]. *)
Definition NamespacedHelpers (k : k8s) (namespace : string) : helpers_Helpers :=
  helpers_NewHelper (ctx k) (Interface k) (config k) namespace.

End kubernetes.

(** ** Package disruptors, file pod.go *)

Module disruptors.

(** [PodAttributes]: the attributes a pod must match.  A Go map is either
    nil ([None]) or a finite map ([Some m], possibly with no entry). *)
Record PodAttributes : Type := {
  Labels : option (gmap string string);
}.

(** [PodSelector]: the criteria for selecting a pod for disruption. *)
Record PodSelector : Type := {
  Namespace : string;
  Select : PodAttributes;
  Exclude : PodAttributes;
}.

Record PodDisruptorOptions : Type := {
  InjectTimeout : Duration;
}.

(** [helpers.PodFilter], as the composite literal in [NewPodDisruptor]
    fills it. *)
Record PodFilter : Type := {
  filter_Select : option (gmap string string);
  filter_Exclude : option (gmap string string);
}.

(** The composite literal [PodAttributes{}]: the zero value, with a nil map. *)
Definition zero_PodAttributes : PodAttributes := {| Labels := None |}.

(** [reflect.DeepEqual] on two maps: both nil, or both non-nil with the same
    entries.  A nil map and an empty non-nil map are not deeply equal. *)
Definition DeepEqual_map (a b : option (gmap string string)) : bool :=
  match a, b with
  | None, None => true
  | Some m1, Some m2 => bool_decide (m1 = m2)
  | _, _ => false
  end.

(** [reflect.DeepEqual] on two [PodAttributes]: field by field. *)
Definition DeepEqual (a b : PodAttributes) : bool :=
  DeepEqual_map (Labels a) (Labels b).

(** [metav1.NamespaceDefault] of k8s.io/apimachinery. *)
Definition metav1_NamespaceDefault : string := "default".

(** The namespace-scoped pod helper that [k8s.PodHelper(namespace)] hands
    out: it remembers the client and the namespace it was asked for. *)
Record PodHelper : Type := {
  helper_k8s : kubernetes.k8s;
  helper_namespace : string;
}.

Definition k8s_PodHelper (k8s : kubernetes.k8s) (namespace : string) : PodHelper :=
  {| helper_k8s := k8s; helper_namespace := namespace |}.

(** Modelled from the spec: the agent controller, whose source
    ([NewAgentController] and the methods of the controller) is not part of
    pod.go.  The spec has it own a namespace, the ordered targets and an
    injection timeout; the constructor is called with exactly these, the
    context and the helper. *)
Record AgentController : Type := {
  ac_ctx : option context_Context;
  ac_helper : PodHelper;
  ac_namespace : string;
  ac_targets : list string;
  ac_timeout : Duration;
}.

Definition NewAgentController (ctx : option context_Context) (helper : PodHelper)
    (namespace : string) (targets : list string) (timeout : Duration)
  : AgentController :=
  {| ac_ctx := ctx; ac_helper := helper; ac_namespace := namespace;
     ac_targets := targets; ac_timeout := timeout |}.

(** The struct [podDisruptor]. *)
Record podDisruptor : Type := {
  pd_ctx : option context_Context;
  controller : AgentController;
}.

(** Calls that leave pod.go and may reach the cluster: the helper's [List]
    and the controller's methods. *)
Inductive ClusterE : Type → Type :=
| PodHelper_List (helper : PodHelper) (ctx : option context_Context)
    (filter : PodFilter) : ClusterE (list string * option error)
| InjectDisruptorAgent (c : AgentController) : ClusterE (option error)
| ExecCommand (c : AgentController) (cmd : list string) : ClusterE (option error)
| controller_Targets (c : AgentController) : ClusterE (list string * option error).

(** The error [NewPodDisruptor] builds for a selector it refuses. *)
Definition InvalidSelector : error :=
  Errorf "namespace, select and exclude attributes in pod selector cannot all be empty".

Definition NewPodDisruptor (ctx : option context_Context) (k8s : kubernetes.k8s)
    (selector : PodSelector) (options : PodDisruptorOptions)
  : Go ClusterE (option podDisruptor * option error) :=
  let emptySelect := DeepEqual (Select selector) zero_PodAttributes in
  let emptyExclude := DeepEqual (Exclude selector) zero_PodAttributes in
  if String.eqb (Namespace selector) "" && emptySelect && emptyExclude
  then mret (None, Some InvalidSelector)
  else
    let namespace := Namespace selector in
    let selector :=
      if String.eqb (Namespace selector) ""
      then {| Namespace := metav1_NamespaceDefault;
              Select := Select selector; Exclude := Exclude selector |}
      else selector in
    let helper := k8s_PodHelper k8s namespace in
    let filter := {| filter_Select := Labels (Select selector);
                     filter_Exclude := Labels (Exclude selector) |} in
    '(targets, err) ← call (PodHelper_List helper ctx filter);
    match err with
    | Some err => mret (None, Some err)
    | None =>
        let controller :=
          NewAgentController ctx helper namespace targets (InjectTimeout options) in
        err ← call (InjectDisruptorAgent controller);
        match err with
        | Some err => mret (None, Some err)
        | None => mret (Some {| pd_ctx := ctx; controller := controller |}, None)
        end
    end.

(** Method [Targets] of [*podDisruptor]. *)
Definition Targets (d : podDisruptor) : Go ClusterE (list string * option error) :=
  call (controller_Targets (controller d)).

(** Modelled from the spec: the fault parameter structs, declared in files
    of the package other than pod.go.  Durations are [time.Duration];
    [ErrorRate] is a fraction, kept as a rational. *)
Record HTTPFault : Type := {
  http_AverageDelay : Duration;
  http_ErrorRate : Q;
  http_ErrorCode : Z;
  http_Exclude : string;
  http_Port : Z;
}.

Record GrpcFault : Type := {
  grpc_AverageDelay : Duration;
  grpc_ErrorRate : Q;
  grpc_StatusCode : Z;
  grpc_Exclude : string;
  grpc_Port : Z;
}.

Record HTTPDisruptionOptions : Type := { http_ProxyPort : Z }.
Record GrpcDisruptionOptions : Type := { grpc_ProxyPort : Z }.

(** The two command builders live in another file of the package.  pod.go
    fixes their shape: each is called with the fault, the duration and the
    options and yields one value, the command; there is no error result. *)
Class FaultCmdBuilder : Type := {
  buildHTTPFaultCmd : HTTPFault → Duration → HTTPDisruptionOptions → list string;
  buildGrpcFaultCmd : GrpcFault → Duration → GrpcDisruptionOptions → list string;
}.

Section Inject.
Context `{FaultCmdBuilder}.

Definition InjectHTTPFaults (d : podDisruptor) (fault : HTTPFault)
    (duration : Duration) (options : HTTPDisruptionOptions)
  : Go ClusterE (option error) :=
  let cmd := buildHTTPFaultCmd fault duration options in
  err ← call (ExecCommand (controller d) cmd);
  mret err.

Definition InjectGrpcFaults (d : podDisruptor) (fault : GrpcFault)
    (duration : Duration) (options : GrpcDisruptionOptions)
  : Go ClusterE (option error) :=
  let cmd := buildGrpcFaultCmd fault duration options in
  err ← call (ExecCommand (controller d) cmd);
  mret err.

End Inject.

End disruptors.

(** ** Reading an execution *)

(** The error value, if any, that a collaborator answered with. *)
Definition event_error (ev : Event disruptors.ClusterE) : option error :=
  match ev with
  | Ev e x =>
      match e in disruptors.ClusterE X return X → option error with
      | disruptors.PodHelper_List _ _ _ => λ x, x.2
      | disruptors.InjectDisruptorAgent _ => λ x, x
      | disruptors.ExecCommand _ _ => λ x, x
      | disruptors.controller_Targets _ => λ x, x.2
      end x
  end.

(** The namespaces that reach the collaborators in one call: the one the
    helper was created for and, for a controller, the one it was given. *)
Definition event_namespaces (ev : Event disruptors.ClusterE) : list string :=
  match ev with
  | Ev e _ =>
      match e with
      | disruptors.PodHelper_List helper _ _ => [disruptors.helper_namespace helper]
      | disruptors.InjectDisruptorAgent c
      | disruptors.ExecCommand c _
      | disruptors.controller_Targets c =>
          [disruptors.helper_namespace (disruptors.ac_helper c);
           disruptors.ac_namespace c]
      end
  end.


(** The context a caller asks an instance to be built with. *)
Definition requested_context (c : kubernetes.Constructor) : option context_Context :=
  match c with
  | kubernetes.via_New ctx => ctx
  | kubernetes.via_NewFromConfig c => kubernetes.Config_Context c
  | kubernetes.via_NewFromKubeconfig _ => None
  | kubernetes.via_newWithContext ctx _ => ctx
  end.

(** The answer of the pod helper, when the call is a listing. *)
Definition listed (ev : Event disruptors.ClusterE)
  : option (list string * option error) :=
  match ev with
  | Ev e x =>
      match e in disruptors.ClusterE X return X → option (list string * option error) with
      | disruptors.PodHelper_List _ _ _ => λ x, Some x
      | _ => λ _, None
      end x
  end.

(** The condition under which [NewPodDisruptor] refuses a selector. *)
Definition selector_refused (selector : disruptors.PodSelector) : bool :=
  String.eqb (disruptors.Namespace selector) ""
  && disruptors.DeepEqual (disruptors.Select selector) disruptors.zero_PodAttributes
  && disruptors.DeepEqual (disruptors.Exclude selector) disruptors.zero_PodAttributes.

Section Outcomes.
Import disruptors.

(** The four ways an execution of [NewPodDisruptor] can go. *)
Inductive NewPodDisruptor_outcome {W : Type} (ctx : option context_Context)
    (selector : PodSelector) (options : PodDisruptorOptions) (w : W)
  : (option podDisruptor * option error) * W * list (Event ClusterE) → Prop :=
| refused_selector :
    selector_refused selector = true →
    NewPodDisruptor_outcome ctx selector options w
      ((None, Some InvalidSelector), w, [])
| listing_failed helper filter targets e w1 :
    selector_refused selector = false →
    helper_namespace helper = Namespace selector →
    NewPodDisruptor_outcome ctx selector options w
      ((None, Some e), w1, [Ev (PodHelper_List helper ctx filter) (targets, Some e)])
| injection_failed helper filter targets e w1 :
    selector_refused selector = false →
    helper_namespace helper = Namespace selector →
    NewPodDisruptor_outcome ctx selector options w
      ((None, Some e), w1,
       [Ev (PodHelper_List helper ctx filter) (targets, None);
        Ev (InjectDisruptorAgent
              (NewAgentController ctx helper (Namespace selector) targets
                 (InjectTimeout options))) (Some e)])
| constructed helper filter targets w1 :
    selector_refused selector = false →
    helper_namespace helper = Namespace selector →
    NewPodDisruptor_outcome ctx selector options w
      ((Some {| pd_ctx := ctx;
                controller := NewAgentController ctx helper (Namespace selector)
                                targets (InjectTimeout options) |}, None), w1,
       [Ev (PodHelper_List helper ctx filter) (targets, None);
        Ev (InjectDisruptorAgent
              (NewAgentController ctx helper (Namespace selector) targets
                 (InjectTimeout options))) None]).

End Outcomes.

(** Which collaborator of package kubernetes a call went to. *)
Inductive ClientCall : Type :=
| call_NewForConfig
| call_NewDiscoveryClientForConfig
| call_ServerVersion
| call_BuildConfigFromFlags
| call_InClusterConfig
| call_getConfigPath.

Definition client_call (ev : Event kubernetes.ClientE) : ClientCall :=
  match ev with
  | Ev e _ =>
      match e with
      | kubernetes.NewForConfig _ => call_NewForConfig
      | kubernetes.NewDiscoveryClientForConfig _ => call_NewDiscoveryClientForConfig
      | kubernetes.ServerVersion _ => call_ServerVersion
      | kubernetes.BuildConfigFromFlags _ _ => call_BuildConfigFromFlags
      | kubernetes.InClusterConfig => call_InClusterConfig
      | kubernetes.getConfigPath => call_getConfigPath
      end
  end.

Definition result_error {T : Type} (r : result T) : option error :=
  match r with
  | Ok _ => None
  | Err e => Some e
  end.

(** The error, if any, that a collaborator of package kubernetes answered. *)
Definition answered_error (ev : Event kubernetes.ClientE) : option error :=
  match ev with
  | Ev e x =>
      match e in kubernetes.ClientE X return X → option error with
      | kubernetes.NewForConfig _ => result_error
      | kubernetes.NewDiscoveryClientForConfig _ => result_error
      | kubernetes.ServerVersion _ => result_error
      | kubernetes.BuildConfigFromFlags _ _ => result_error
      | kubernetes.InClusterConfig => result_error
      | kubernetes.getConfigPath => result_error
      end x
  end.

(** The configuration a clientset or a discovery client is asked for. *)
Definition created_for (ev : Event kubernetes.ClientE) : option kubernetes.rest_Config :=
  match ev with
  | Ev e _ =>
      match e with
      | kubernetes.NewForConfig c => Some c
      | kubernetes.NewDiscoveryClientForConfig c => Some c
      | _ => None
      end
  end.

(** The version the server reported, when the call asked for it and got it. *)
Definition reported_version (ev : Event kubernetes.ClientE)
  : option kubernetes.version_Info :=
  match ev with
  | Ev e x =>
      match e in kubernetes.ClientE X return X → option kubernetes.version_Info with
      | kubernetes.ServerVersion _ =>
          λ x, match x with Ok version => Some version | Err _ => None end
      | _ => λ _, None
      end x
  end.

(** The order in which each constructor calls its collaborators when no
    call fails.  [New] has two: with the in-cluster configuration, and with
    a kubeconfig. *)
Definition call_plans (c : kubernetes.Constructor) : list (list ClientCall) :=
  let build := [call_NewForConfig; call_NewDiscoveryClientForConfig;
                call_ServerVersion] in
  match c with
  | kubernetes.via_New _ =>
      [call_InClusterConfig :: build;
       call_InClusterConfig :: call_getConfigPath :: call_BuildConfigFromFlags :: build]
  | kubernetes.via_NewFromConfig _
  | kubernetes.via_NewFromKubeconfig _ => [call_BuildConfigFromFlags :: build]
  | kubernetes.via_newWithContext _ _ => [build]
  end.

(** Which collaborator of pod.go a call went to. *)
Inductive CallKind : Type :=
| listing
| injection
| execution
| targets_query.

Definition call_kind (ev : Event disruptors.ClusterE) : CallKind :=
  match ev with
  | Ev e _ =>
      match e with
      | disruptors.PodHelper_List _ _ _ => listing
      | disruptors.InjectDisruptorAgent _ => injection
      | disruptors.ExecCommand _ _ => execution
      | disruptors.controller_Targets _ => targets_query
      end
  end.

(** A decimal digit as a character. *)
Definition digit (n : nat) : Ascii.ascii := Ascii.ascii_of_nat (48 + n).

(** ** The specification's vocabulary *)

(** A fault specification the specification calls malformed: the duration
    is not strictly positive, or the error rate is not a fraction in [0,1]. *)
Definition malformed (duration : Duration) (errorRate : Q) : Prop :=
  (duration <= 0)%Z ∨ ¬ (0 <= errorRate ∧ errorRate <= 1)%Q.

(** Decimal reading of a version component. *)
Definition digit_of (c : Ascii.ascii) : option N :=
  let n := Ascii.N_of_ascii c in
  if ((48 <=? n) && (n <=? 57))%N then Some (n - 48)%N else None.

Fixpoint decimal_from (acc : N) (s : string) : option N :=
  match s with
  | EmptyString => Some acc
  | String c s' =>
      match digit_of c with
      | Some d => decimal_from (10 * acc + d)%N s'
      | None => None
      end
  end.

Definition decimal (s : string) : option N :=
  match s with
  | EmptyString => None
  | _ => decimal_from 0%N s
  end.

(** The specification's reading of "reported version below v1.23": major
    and minor compared as numbers. *)
Definition below_v1_23 (version : kubernetes.version_Info) : option bool :=
  match decimal (kubernetes.Major version), decimal (kubernetes.Minor version) with
  | Some major, Some minor => Some ((major <? 1)%N || ((major =? 1)%N && (minor <? 23)%N))
  | _, _ => None
  end.

(** Modelled from the spec: the per-target wait policy of the agent
    controller's [InjectDisruptorAgent], whose source is not part of pod.go.
    A negative timeout does not wait for the agent, zero waits up to a fixed
    system default, a positive timeout is the bound of the wait. *)
Module injection.

Inductive WaitPolicy : Type :=
| NoWait
| WaitAtMost (bound : Duration).

Inductive InjectionState : Type :=
| Pending
| Injected
| InjectionFailed.

(** What the cluster does with the request to add the agent to one pod: the
    API accepts the mutation or not, and the agent container reports running
    after some delay, or never. *)
Record TargetBehaviour : Type := {
  accepted : bool;
  runningAfter : option Duration;
}.

Section Policy.
Variable defaultTimeout : Duration.

Definition waitPolicy (injectTimeout : Duration) : WaitPolicy :=
  if injectTimeout <? 0 then NoWait
  else if injectTimeout =? 0 then WaitAtMost defaultTimeout
  else WaitAtMost injectTimeout.

(** Outcome for one target: its state and the time spent waiting for the
    agent to report running. *)
Definition injectTarget (injectTimeout : Duration) (b : TargetBehaviour)
  : InjectionState * Duration :=
  if negb (accepted b) then (InjectionFailed, 0)
  else
    match waitPolicy injectTimeout with
    | NoWait => (Injected, 0)
    | WaitAtMost bound =>
        match runningAfter b with
        | Some delay =>
            if delay <=? bound then (Injected, Z.max 0 delay)
            else (InjectionFailed, bound)
        | None => (InjectionFailed, bound)
        end
    end.

End Policy.

End injection.

(** ** Stand-ins for the collaborators, for running the code on examples *)

Module fixture.

(** A cluster that can be reached with a kubeconfig and reports [version]. *)
Definition cluster_reporting (version : kubernetes.version_Info)
  : handler kubernetes.ClientE unit :=
  λ X e w,
    match e in kubernetes.ClientE X return X * unit with
    | kubernetes.NewForConfig c => (Ok {| kubernetes.clientset_config := c |}, w)
    | kubernetes.NewDiscoveryClientForConfig c =>
        (Ok {| kubernetes.discovery_config := c |}, w)
    | kubernetes.ServerVersion _ => (Ok version, w)
    | kubernetes.BuildConfigFromFlags _ path =>
        (Ok {| kubernetes.Host := path; kubernetes.QPS := 5; kubernetes.Burst := 10 |}, w)
    | kubernetes.InClusterConfig => (Err (Errorf "not running in a cluster"), w)
    | kubernetes.getConfigPath => (Ok "/home/k6/.kube/config", w)
    end.

Definition kubeconfig_config : kubernetes.rest_Config :=
  {| kubernetes.Host := "https://10.0.0.1:6443"; kubernetes.QPS := 5; kubernetes.Burst := 10 |}.

Definition v1_9 : kubernetes.version_Info :=
  {| kubernetes.Major := "1"; kubernetes.Minor := "9" |}.
Definition v1_27 : kubernetes.version_Info :=
  {| kubernetes.Major := "1"; kubernetes.Minor := "27" |}.

Definition client : kubernetes.k8s :=
  {| kubernetes.config :=
       {| kubernetes.Host := "https://10.0.0.1:6443";
          kubernetes.QPS := 100; kubernetes.Burst := 150 |};
     kubernetes.Interface :=
       {| kubernetes.clientset_config := kubeconfig_config |};
     kubernetes.ctx := Some context_TODO |}.

(** The instance the code builds on that cluster from a kubeconfig. *)
Definition instance_from_kubeconfig : kubernetes.k8s :=
  {| kubernetes.config :=
       {| kubernetes.Host := "/home/k6/.kube/config";
          kubernetes.QPS := 100; kubernetes.Burst := 150 |};
     kubernetes.Interface :=
       {| kubernetes.clientset_config :=
            {| kubernetes.Host := "/home/k6/.kube/config";
               kubernetes.QPS := 100; kubernetes.Burst := 150 |} |};
     kubernetes.ctx := Some context_TODO |}.

(** A minor version written with two decimal digits. *)
Definition two_digit_minor (tens units : nat) : kubernetes.version_Info :=
  {| kubernetes.Major := "1";
     kubernetes.Minor :=
       String (Ascii.ascii_of_nat (48 + tens))
         (String (Ascii.ascii_of_nat (48 + units)) EmptyString) |}.

(** The context the examples pass along. *)
Definition ctx : option context_Context := Some context_TODO.

(** Collaborators that answer from a script and count the calls made. *)
Record Script : Type := {
  list_answer : list string * option error;
  inject_answer : option error;
  exec_answer : option error;
}.

Definition scripted (s : Script) : handler disruptors.ClusterE nat :=
  λ X e n,
    match e in disruptors.ClusterE X return X * nat with
    | disruptors.PodHelper_List _ _ _ => (list_answer s, S n)
    | disruptors.InjectDisruptorAgent _ => (inject_answer s, S n)
    | disruptors.ExecCommand _ _ => (exec_answer s, S n)
    | disruptors.controller_Targets c => ((disruptors.ac_targets c, None), S n)
    end.

Definition two_pods : Script :=
  {| list_answer := (["checkout-0"; "checkout-1"], None);
     inject_answer := None; exec_answer := None |}.
Definition no_pods : Script :=
  {| list_answer := ([], None); inject_answer := None; exec_answer := None |}.
Definition list_fails : Script :=
  {| list_answer := ([], Some (Errorf "pods is forbidden"));
     inject_answer := None; exec_answer := None |}.
Definition exec_fails : Script :=
  {| list_answer := (["checkout-0"], None); inject_answer := None;
     exec_answer := Some (Errorf "command terminated with exit code 1") |}.

Definition app_checkout : disruptors.PodAttributes :=
  {| disruptors.Labels := Some {[ "app" := "checkout" ]} |}.
Definition no_labels : disruptors.PodAttributes :=
  {| disruptors.Labels := Some ∅ |}.

Definition selector_no_namespace : disruptors.PodSelector :=
  {| disruptors.Namespace := "";
     disruptors.Select := app_checkout;
     disruptors.Exclude := disruptors.zero_PodAttributes |}.
Definition selector_ns1 : disruptors.PodSelector :=
  {| disruptors.Namespace := "ns1";
     disruptors.Select := app_checkout;
     disruptors.Exclude := disruptors.zero_PodAttributes |}.
Definition selector_empty_maps : disruptors.PodSelector :=
  {| disruptors.Namespace := "";
     disruptors.Select := no_labels;
     disruptors.Exclude := no_labels |}.

Definition options : disruptors.PodDisruptorOptions :=
  {| disruptors.InjectTimeout := 0 |}.
Definition options_no_wait : disruptors.PodDisruptorOptions :=
  {| disruptors.InjectTimeout := -1 |}.

Definition disruptor : disruptors.podDisruptor :=
  {| disruptors.pd_ctx := Some context_TODO;
     disruptors.controller :=
       disruptors.NewAgentController (Some context_TODO)
         (disruptors.k8s_PodHelper client "ns1") "ns1" ["checkout-0"] 0 |}.

(** A fault with error rate 2 and, below, a duration of zero. *)
Definition fault_rate_2 : disruptors.HTTPFault :=
  {| disruptors.http_AverageDelay := 100000000;
     disruptors.http_ErrorRate := 2;
     disruptors.http_ErrorCode := 500;
     disruptors.http_Exclude := "";
     disruptors.http_Port := 80 |}.
Definition http_options : disruptors.HTTPDisruptionOptions :=
  {| disruptors.http_ProxyPort := 8080 |}.

Definition grpc_fault_rate_2 : disruptors.GrpcFault :=
  {| disruptors.grpc_AverageDelay := 100000000;
     disruptors.grpc_ErrorRate := 2;
     disruptors.grpc_StatusCode := 14;
     disruptors.grpc_Exclude := "";
     disruptors.grpc_Port := 3000 |}.
Definition grpc_options : disruptors.GrpcDisruptionOptions :=
  {| disruptors.grpc_ProxyPort := 4000 |}.

(** The disruptor built for [selector_ns1] with [options_no_wait] when the
    listing answers [two_pods]. *)
Definition disruptor_no_wait : disruptors.podDisruptor :=
  {| disruptors.pd_ctx := Some context_TODO;
     disruptors.controller :=
       disruptors.NewAgentController (Some context_TODO)
         (disruptors.k8s_PodHelper client "ns1") "ns1"
         ["checkout-0"; "checkout-1"] (-1) |}.

(** Thirty seconds, in nanoseconds. *)
Definition thirty_seconds : Duration := 30000000000.

(** A builder that only names the agent's sub-command. *)
Definition sub_command : disruptors.FaultCmdBuilder :=
  {| disruptors.buildHTTPFaultCmd := λ _ _ _, ["xk6-disruptor-agent"; "http"];
     disruptors.buildGrpcFaultCmd := λ _ _ _, ["xk6-disruptor-agent"; "grpc"] |}.

(** A cluster on which each step of the bootstrap answers from a script. *)
Record ClientScript : Type := {
  in_cluster : result kubernetes.rest_Config;
  config_path : result string;
  from_flags : result kubernetes.rest_Config;
  clientset_error : option error;
  discovery_error : option error;
  server_version : result kubernetes.version_Info;
}.

Definition scripted_client (s : ClientScript) : handler kubernetes.ClientE nat :=
  λ X e n,
    match e in kubernetes.ClientE X return X * nat with
    | kubernetes.NewForConfig c =>
        (match clientset_error s with
         | Some err => Err err
         | None => Ok {| kubernetes.clientset_config := c |}
         end, S n)
    | kubernetes.NewDiscoveryClientForConfig c =>
        (match discovery_error s with
         | Some err => Err err
         | None => Ok {| kubernetes.discovery_config := c |}
         end, S n)
    | kubernetes.ServerVersion _ => (server_version s, S n)
    | kubernetes.BuildConfigFromFlags _ _ => (from_flags s, S n)
    | kubernetes.InClusterConfig => (in_cluster s, S n)
    | kubernetes.getConfigPath => (config_path s, S n)
    end.

Definition v1_27_plus : kubernetes.version_Info :=
  {| kubernetes.Major := "1"; kubernetes.Minor := "27+" |}.
Definition v1_22 : kubernetes.version_Info :=
  {| kubernetes.Major := "1"; kubernetes.Minor := "22" |}.
Definition v1_5 : kubernetes.version_Info :=
  {| kubernetes.Major := "1"; kubernetes.Minor := "5" |}.
Definition v2_0 : kubernetes.version_Info :=
  {| kubernetes.Major := "2"; kubernetes.Minor := "0" |}.

(** Inside a pod: the in-cluster configuration is there. *)
Definition inside_cluster (version : kubernetes.version_Info) : ClientScript :=
  {| in_cluster := Ok kubeconfig_config;
     config_path := Err (Errorf "no kubeconfig");
     from_flags := Err (Errorf "no kubeconfig");
     clientset_error := None; discovery_error := None;
     server_version := Ok version |}.

(** Outside a cluster, with a kubeconfig, the API server being down. *)
Definition server_down : ClientScript :=
  {| in_cluster := Err (Errorf "not running in a cluster");
     config_path := Ok "/home/k6/.kube/config";
     from_flags := Ok kubeconfig_config;
     clientset_error := None; discovery_error := None;
     server_version := Err (Errorf "connection refused") |}.

(** Outside a cluster, with no kubeconfig to be found. *)
Definition no_config : ClientScript :=
  {| in_cluster := Err (Errorf "not running in a cluster");
     config_path := Err (Errorf "no home directory");
     from_flags := Err (Errorf "no kubeconfig");
     clientset_error := None; discovery_error := None;
     server_version := Ok v1_27 |}.

Definition selector_namespace_only : disruptors.PodSelector :=
  {| disruptors.Namespace := "ns1";
     disruptors.Select := disruptors.zero_PodAttributes;
     disruptors.Exclude := disruptors.zero_PodAttributes |}.

End fixture.

(** Unfold the monadic notation and name the answer of the next call. *)
Ltac go_unfold := unfold mbind, Go_bind, mret, Go_ret, call; simpl.
Ltac next_answer x w :=
  match goal with
  | |- context [ ?h ?X ?e ?w0 ] =>
      lazymatch type of h with
      | handler _ _ => destruct (h X e w0) as [x w] eqn:?
      end
  end; simpl.

(** Name the answer of the next call and split on success and failure. *)
Ltac client_step :=
  let r := fresh "r" in
  let w := fresh "w" in
  match goal with
  | |- context [ ?h ?X ?e ?w0 ] =>
      lazymatch type of h with
      | handler _ _ => destruct (h X e w0) as [r w] eqn:?; destruct r; simpl
      end
  end.

(** All the executions of a constructor of package kubernetes. *)
Ltac construct_cases c :=
  destruct c as [? | [? ?] | ? | ? ?];
  unfold kubernetes.construct, kubernetes.New, kubernetes.NewFromKubeconfig,
    kubernetes.NewFromConfig, kubernetes.newWithContext, kubernetes.checkK8sVersion;
  go_unfold; repeat client_step;
  try match goal with
      | |- context [ kubernetes.string_lt ?a ?b ] =>
          destruct (kubernetes.string_lt a b) eqn:?
      end;
  simpl.

(** Go through the events of a trace that is known call by call. *)
Ltac each_event H :=
  repeat (apply elem_of_cons in H as [-> | H]; simpl);
  try (by apply elem_of_nil in H).

(** Find an event in a trace that is known call by call. *)
Ltac in_trace :=
  unfold trace; simpl;
  repeat first [ apply list_elem_of_here | apply list_elem_of_further ].

(** * Facts about executions *)

Section RunFacts.
Context {E : Type → Type} {W : Type} (h : handler E W).

Lemma run_bind {A B : Type} (p : Go E A) (k : A → Go E B) (w : W) :
  run h (bind k p) w =
    let '(a, w1, tr1) := run h p w in
    let '(b, w2, tr2) := run h (k a) w1 in
    (b, w2, (tr1 ++ tr2)%list).
Proof.
  revert w. induction p as [a | X e k' IH]; intros w; simpl.
  - by destruct (run h (k a) w) as [[b w2] tr2].
  - destruct (h X e w) as [x w1]. rewrite IH.
    destruct (run h (k' x) w1) as [[a w2] tr1].
    by destruct (run h (k a) w2) as [[b w3] tr2].
Qed.

Lemma run_call {X : Type} (e : E X) (w : W) :
  run h (call e) w = ((h X e w).1, (h X e w).2, [Ev e (h X e w).1]).
Proof. unfold call. simpl. by destruct (h X e w). Qed.

(** A program that runs after one more call: same return values, and its
    trace is the tail of the whole trace. *)
Lemma run_after {R : Type} (p : Go E R) (w0 : W) (ev : Event E) (out : R) :
  returned (let '(r, w2, tr) := run h p w0 in (r, w2, ev :: tr)) = out →
  returned (run h p w0) = out
  ∧ ∀ pre, trace (let '(r, w2, tr) := run h p w0 in (r, w2, (pre ++ ev :: tr)%list))
      = ((pre ++ [ev]) ++ trace (run h p w0))%list.
Proof.
  unfold returned, trace. destruct (run h p w0) as [[r w'] tr]. simpl.
  intros ->. split; [done |]. intros pre. by rewrite <- app_assoc.
Qed.

End RunFacts.

(** * Package kubernetes *)

Section KubernetesFacts.
Import kubernetes.
Context {W : Type} (h : handler ClientE W).

(** What a successful version check has seen. *)
Lemma checkK8sVersion_nil (config : rest_Config) (w : W) :
  returned (run h (checkK8sVersion config) w) = None →
  ∃ d version,
    trace (run h (checkK8sVersion config) w)
      = [Ev (NewDiscoveryClientForConfig config) (Ok d);
         Ev (ServerVersion d) (Ok version)]
    ∧ string_lt (semver version) "v1.23" = false.
Proof.
  unfold checkK8sVersion, returned, trace. go_unfold.
  next_answer r w1. destruct r as [d | err]; simpl; [| discriminate].
  next_answer r w2. destruct r as [version | err]; simpl; [| discriminate].
  destruct (string_lt (semver version) "v1.23") eqn:Hlt; simpl; [discriminate |].
  intros _. by exists d, version.
Qed.

(** What [newWithContext] has done when it hands out an instance. *)
Lemma newWithContext_instance (ctx0 : option context_Context)
    (config0 : rest_Config) (w : W) (k : k8s) (err : option error) :
  returned (run h (newWithContext ctx0 config0) w) = (Some k, err) →
  err = None
  ∧ ctx k = Some (default context_TODO ctx0)
  ∧ config k = {| Host := Host config0; QPS := 100; Burst := 150 |}
  ∧ ∃ client d version,
      trace (run h (newWithContext ctx0 config0) w)
        = [Ev (NewForConfig (config k)) (Ok client);
           Ev (NewDiscoveryClientForConfig (config k)) (Ok d);
           Ev (ServerVersion d) (Ok version)]
      ∧ string_lt (semver version) "v1.23" = false.
Proof.
  unfold newWithContext, checkK8sVersion, returned, trace. go_unfold.
  next_answer r w1. destruct r as [client | e]; simpl; [| discriminate].
  next_answer r w2. destruct r as [d | e]; simpl; [| discriminate].
  next_answer r w3. destruct r as [version | e]; simpl; [| discriminate].
  destruct (string_lt (semver version) "v1.23") eqn:Hlt; simpl; [discriminate |].
  intros [= <- <-]. simpl. repeat split.
  - by destruct ctx0.
  - by exists client, d, version.
Qed.

(** Every constructor ends in [newWithContext]; the calls made before it
    only find the configuration. *)
Lemma construct_ends_in_newWithContext (c : Constructor) (w : W) (k : k8s)
    (err : option error) :
  returned (run h (construct c) w) = (Some k, err) →
  ∃ config0 w0 before,
    returned (run h (newWithContext (requested_context c) config0) w0) = (Some k, err)
    ∧ trace (run h (construct c) w)
        = (before ++ trace (run h (newWithContext (requested_context c) config0) w0))%list.
Proof.
  destruct c as [ctx0 | [ctx0 path] | path | ctx0 config0];
    unfold construct, requested_context, Config_Context;
    [unfold New, NewFromConfig | unfold NewFromConfig
    | unfold NewFromKubeconfig, NewFromConfig | ];
    unfold Kubeconfig, Config_Context;
    generalize newWithContext; intros nwc.
  - go_unfold. next_answer r w1. destruct r as [k8sConfig | e1]; simpl.
    + intros Hk. apply run_after in Hk as [Hk Htr].
      exists k8sConfig, w1, [Ev InClusterConfig (Ok k8sConfig)].
      split; [done |]. apply (Htr []).
    + next_answer r w2. destruct r as [kubeConfigPath | e2]; simpl; [| discriminate].
      next_answer r w3. destruct r as [config0 | e3]; simpl; [| discriminate].
      intros Hk.
      assert (Hk' : returned (let '(r, w4, tr) := run h (nwc ctx0 config0) w3 in
          (r, w4, Ev (BuildConfigFromFlags "" kubeConfigPath) (Ok config0) :: tr))
          = (Some k, err)).
      { revert Hk. unfold returned.
        by destruct (run h (nwc ctx0 config0) w3) as [[r w'] tr]. }
      apply run_after in Hk' as [Hk' Htr].
      exists config0, w3,
        [Ev InClusterConfig (Err e1); Ev getConfigPath (Ok kubeConfigPath);
         Ev (BuildConfigFromFlags "" kubeConfigPath) (Ok config0)].
      split; [done |].
      specialize (Htr [Ev InClusterConfig (Err e1); Ev getConfigPath (Ok kubeConfigPath)]).
      revert Htr. unfold trace.
      by destruct (run h (nwc ctx0 config0) w3) as [[r w'] tr].
  - go_unfold. next_answer r w1. destruct r as [config0 | e]; simpl; [| discriminate].
    intros Hk. apply run_after in Hk as [Hk Htr].
    exists config0, w1, [Ev (BuildConfigFromFlags "" path) (Ok config0)].
    split; [done |]. apply (Htr []).
  - go_unfold. next_answer r w1. destruct r as [config0 | e]; simpl; [| discriminate].
    intros Hk. apply run_after in Hk as [Hk Htr].
    exists config0, w1, [Ev (BuildConfigFromFlags "" path) (Ok config0)].
    split; [done |]. apply (Htr []).
  - intros Hk. by exists config0, w, [].
Qed.

(** The version check decides by the byte-wise order of the strings. *)
Lemma checkK8sVersion_decides (config : rest_Config) (w w1 w2 : W)
    (d : DiscoveryClient) (version : version_Info) :
  h _ (NewDiscoveryClientForConfig config) w = (Ok d, w1) →
  h _ (ServerVersion d) w1 = (Ok version, w2) →
  returned (run h (checkK8sVersion config) w)
    = if string_lt (semver version) "v1.23"
      then Some (Errorf
             ("unsupported Kubernetes version. Expected >= v1.23 but actual is "
              +:+ semver version))
      else None.
Proof.
  intros H1 H2. unfold checkK8sVersion, returned. go_unfold.
  rewrite H1. simpl. rewrite H2. simpl.
  by destruct (string_lt (semver version) "v1.23").
Qed.

(** C9: an instance built with a nil context carries the placeholder
    [context.TODO()], and an instance built with a context carries that
    context; so [Context()] of every instance that [New], [NewFromConfig],
    [NewFromKubeconfig] or [newWithContext] hands out is non-nil. *)
Theorem Context_never_nil (c : Constructor) (w : W) (k : k8s) (err : option error) :
  returned (run h (construct c) w) = (Some k, err) →
  Context k = Some (default context_TODO (requested_context c))
  ∧ (requested_context c = None → Context k = Some context_TODO)
  ∧ Context k ≠ None.
Proof.
  intros Hk.
  destruct (construct_ends_in_newWithContext c w k err Hk) as (config0 & w0 & before & Hn & _).
  destruct (newWithContext_instance _ _ _ _ _ Hn) as (_ & Hctx & _).
  unfold Context. rewrite Hctx. repeat split.
  - by intros ->.
  - discriminate.
Qed.


End KubernetesFacts.

(** On major 1 and a minor of two digits the byte-wise order of the check
    is the numeric order. *)
Lemma string_order_on_two_digit_minors (tens units : nat) :
  (1 ≤ tens < 10)%nat → (units < 10)%nat →
  below_v1_23 (fixture.two_digit_minor tens units)
    = Some (kubernetes.string_lt
              (kubernetes.semver (fixture.two_digit_minor tens units)) "v1.23").
Proof.
  intros Ht Hu.
  assert (Ht' : (tens = 1 ∨ tens = 2 ∨ tens = 3 ∨ tens = 4 ∨ tens = 5 ∨ tens = 6
                 ∨ tens = 7 ∨ tens = 8 ∨ tens = 9)%nat) by lia.
  assert (Hu' : (units = 0 ∨ units = 1 ∨ units = 2 ∨ units = 3 ∨ units = 4
                 ∨ units = 5 ∨ units = 6 ∨ units = 7 ∨ units = 8 ∨ units = 9)%nat)
    by lia.
  clear Ht Hu.
  repeat match goal with
         | H : _ ∨ _ |- _ => destruct H as [-> | H]
         end; subst; reflexivity.
Qed.

(** C5, the code at the failing input: a cluster that reports major 1 and
    minor 9 is below v1.23 as a version, but "v1.9" is not below "v1.23" as
    a string, so the version check returns nil and [newWithContext] hands
    out an instance. *)
Theorem checkK8sVersion_accepts_v1_9 :
  below_v1_23 fixture.v1_9 = Some true
  ∧ kubernetes.string_lt (kubernetes.semver fixture.v1_9) "v1.23" = false
  ∧ returned (run (fixture.cluster_reporting fixture.v1_9)
                (kubernetes.checkK8sVersion fixture.kubeconfig_config) ()) = None
  ∧ ∃ k, returned (run (fixture.cluster_reporting fixture.v1_9)
                     (kubernetes.newWithContext None fixture.kubeconfig_config) ())
         = (Some k, None).
Proof. repeat split; try reflexivity. eexists. reflexivity. Qed.

(** The instance of the fixture is what [NewFromKubeconfig] returns on a
    cluster that reports v1.27. *)
Lemma Context_never_nil_witness :
  returned (run (fixture.cluster_reporting fixture.v1_27)
              (kubernetes.construct
                 (kubernetes.via_NewFromKubeconfig "/home/k6/.kube/config")) ())
    = (Some fixture.instance_from_kubeconfig, None)
  ∧ kubernetes.Context fixture.instance_from_kubeconfig ≠ None.
Proof.
  split; [reflexivity |].
  apply (Context_never_nil (fixture.cluster_reporting fixture.v1_27)
           (kubernetes.via_NewFromKubeconfig "/home/k6/.kube/config") ()
           fixture.instance_from_kubeconfig None).
  reflexivity.
Defined.


(** * Package disruptors *)

Section DisruptorFacts.
Import disruptors.
Context {W : Type} (h : handler ClusterE W).

Lemma DeepEqual_zero (a : PodAttributes) :
  DeepEqual a zero_PodAttributes = true ↔ a = zero_PodAttributes.
Proof.
  destruct a as [[m |]]; unfold DeepEqual, zero_PodAttributes; simpl.
  - split; intros; discriminate.
  - done.
Qed.

Lemma selector_refused_iff (selector : PodSelector) :
  selector_refused selector = true
  ↔ Namespace selector = ""
    ∧ Select selector = zero_PodAttributes
    ∧ Exclude selector = zero_PodAttributes.
Proof.
  unfold selector_refused.
  rewrite !andb_true_iff, String.eqb_eq, !DeepEqual_zero. tauto.
Qed.

Lemma NewPodDisruptor_outcomes (ctx : option context_Context) (k8s : kubernetes.k8s)
    (selector : PodSelector) (options : PodDisruptorOptions) (w : W) :
  NewPodDisruptor_outcome ctx selector options w
    (run h (NewPodDisruptor ctx k8s selector options) w).
Proof.
  unfold NewPodDisruptor. fold (selector_refused selector).
  destruct (selector_refused selector) eqn:Href.
  - by apply refused_selector.
  - go_unfold. next_answer r w1. destruct r as [targets [e |]]; simpl.
    + by apply listing_failed.
    + next_answer r w2. destruct r as [e |]; simpl.
      * by apply injection_failed.
      * by apply constructed.
Qed.


(** Whatever namespace reaches the pod helper or the agent controller is the
    selector's own [Namespace] field, as the caller wrote it. *)
Lemma NewPodDisruptor_passes_namespace_on (ctx : option context_Context)
    (k8s : kubernetes.k8s) (selector : PodSelector) (options : PodDisruptorOptions)
    (w : W) (ev : Event ClusterE) (ns : string) :
  ev ∈ trace (run h (NewPodDisruptor ctx k8s selector options) w) →
  ns ∈ event_namespaces ev →
  ns = Namespace selector.
Proof.
  destruct (NewPodDisruptor_outcomes ctx k8s selector options w)
    as [Href | helper filter targets e w1 Href Hns
        | helper filter targets e w1 Href Hns | helper filter targets w1 Href Hns];
    unfold trace; simpl; intros Hev Hin.
  - by apply elem_of_nil in Hev.
  - apply list_elem_of_singleton in Hev as ->. simpl in Hin.
    apply list_elem_of_singleton in Hin as ->. done.
  - apply elem_of_cons in Hev as [-> | Hev]; simpl in Hin.
    + apply list_elem_of_singleton in Hin as ->. done.
    + apply list_elem_of_singleton in Hev as ->. simpl in Hin.
      apply elem_of_cons in Hin as [-> | Hin]; [done |].
      by apply list_elem_of_singleton in Hin as ->.
  - apply elem_of_cons in Hev as [-> | Hev]; simpl in Hin.
    + apply list_elem_of_singleton in Hin as ->. done.
    + apply list_elem_of_singleton in Hev as ->. simpl in Hin.
      apply elem_of_cons in Hin as [-> | Hin]; [done |].
      by apply list_elem_of_singleton in Hin as ->.
Qed.

(** C4: construction is all-or-nothing.  A refused selector, an error
    answered by the listing and an error answered by [InjectDisruptorAgent]
    each make [NewPodDisruptor] return a nil disruptor together with that
    very error; and when a disruptor is returned, the error is nil, the
    selector was accepted, and the execution consists of a listing and an
    injection on the disruptor's controller that both answered without
    error. *)
Theorem NewPodDisruptor_all_or_nothing (ctx : option context_Context)
    (k8s : kubernetes.k8s) (selector : PodSelector) (options : PodDisruptorOptions)
    (w : W) :
  let out := run h (NewPodDisruptor ctx k8s selector options) w in
  (selector_refused selector = true → returned out = (None, Some InvalidSelector))
  ∧ (∀ ev e, ev ∈ trace out → event_error ev = Some e →
       returned out = (None, Some e))
  ∧ (∀ d, (returned out).1 = Some d →
       (returned out).2 = None
       ∧ selector_refused selector = false
       ∧ ∃ helper filter,
           trace out
             = [Ev (PodHelper_List helper ctx filter) (ac_targets (controller d), None);
                Ev (InjectDisruptorAgent (controller d)) None]).
Proof.
  simpl.
  destruct (NewPodDisruptor_outcomes ctx k8s selector options w)
    as [Href | helper filter targets e w1 Href Hns
        | helper filter targets e w1 Href Hns | helper filter targets w1 Href Hns];
    unfold returned, trace; simpl; (split; [congruence | split]);
    try (intros d; discriminate).
  - intros ev e Hev. by apply elem_of_nil in Hev.
  - intros ev e' Hev. apply list_elem_of_singleton in Hev as ->. simpl. congruence.
  - intros ev e' Hev.
    apply elem_of_cons in Hev as [-> | Hev]; simpl; [discriminate |].
    apply list_elem_of_singleton in Hev as ->. simpl. congruence.
  - intros ev e' Hev.
    apply elem_of_cons in Hev as [-> | Hev]; simpl; [discriminate |].
    apply list_elem_of_singleton in Hev as ->. simpl. discriminate.
  - intros d [= <-]. simpl. repeat split; [done |]. by exists helper, filter.
Qed.

(** C7: when the selector is accepted and the listing answers with no pod
    and no error, [NewPodDisruptor] goes on: the next and last call is
    [InjectDisruptorAgent] on a controller with zero targets, and what
    [NewPodDisruptor] returns is decided by the answer of that call alone;
    when it is nil, a disruptor with zero targets is returned. *)
Theorem NewPodDisruptor_accepts_empty_match (ctx : option context_Context)
    (k8s : kubernetes.k8s) (selector : PodSelector) (options : PodDisruptorOptions)
    (w : W) :
  let out := run h (NewPodDisruptor ctx k8s selector options) w in
  selector_refused selector = false →
  listed <$> head (trace out) = Some (Some ([], None)) →
  ∃ first c answer,
    trace out = [first; Ev (InjectDisruptorAgent c) answer]
    ∧ ac_targets c = []
    ∧ returned out
        = match answer with
          | None => (Some {| pd_ctx := ctx; controller := c |}, None)
          | Some e => (None, Some e)
          end.
Proof.
  simpl. intros Hacc.
  destruct (NewPodDisruptor_outcomes ctx k8s selector options w)
    as [Href | helper filter targets e w1 Href Hns
        | helper filter targets e w1 Href Hns | helper filter targets w1 Href Hns];
    unfold returned, trace; simpl; try congruence.
  - intros [= ->]. by eexists _, _, (Some e).
  - intros [= ->]. by eexists _, _, None.
Qed.

End DisruptorFacts.

Section InjectFacts.
Import disruptors.
Context `{FaultCmdBuilder} {W : Type} (h : handler ClusterE W).

(** C6: [InjectHTTPFaults] and [InjectGrpcFaults] make exactly one call,
    [ExecCommand] on the command built from their arguments, and return the
    error that call answered, unchanged. *)
Theorem InjectFaults_return_ExecCommand_error (d : podDisruptor) (w : W) :
  (∀ fault duration options,
     let exec := ExecCommand (controller d) (buildHTTPFaultCmd fault duration options) in
     run h (InjectHTTPFaults d fault duration options) w
       = ((h _ exec w).1, (h _ exec w).2, [Ev exec (h _ exec w).1]))
  ∧ (∀ fault duration options,
     let exec := ExecCommand (controller d) (buildGrpcFaultCmd fault duration options) in
     run h (InjectGrpcFaults d fault duration options) w
       = ((h _ exec w).1, (h _ exec w).2, [Ev exec (h _ exec w).1])).
Proof.
  split; intros fault duration options; simpl;
    unfold InjectHTTPFaults, InjectGrpcFaults; go_unfold;
    by next_answer err w1.
Qed.

(** C3 as amended: a malformed fault specification (duration not positive,
    or error rate outside [0,1]) is not refused by the facade.  The command
    is built and [ExecCommand] is called on it, once, and the caller gets
    the answer of that call: nil when the controller reports no error. *)
Theorem malformed_spec_reaches_ExecCommand (d : podDisruptor) (w : W)
    (httpFault : HTTPFault) (grpcFault : GrpcFault) (duration : Duration)
    (httpOptions : HTTPDisruptionOptions) (grpcOptions : GrpcDisruptionOptions) :
  malformed duration (http_ErrorRate httpFault) →
  malformed duration (grpc_ErrorRate grpcFault) →
  (∃ answer,
     trace (run h (InjectHTTPFaults d httpFault duration httpOptions) w)
       = [Ev (ExecCommand (controller d)
                (buildHTTPFaultCmd httpFault duration httpOptions)) answer]
     ∧ returned (run h (InjectHTTPFaults d httpFault duration httpOptions) w) = answer)
  ∧ (∃ answer,
     trace (run h (InjectGrpcFaults d grpcFault duration grpcOptions) w)
       = [Ev (ExecCommand (controller d)
                (buildGrpcFaultCmd grpcFault duration grpcOptions)) answer]
     ∧ returned (run h (InjectGrpcFaults d grpcFault duration grpcOptions) w) = answer).
Proof.
  intros _ _.
  split; unfold InjectHTTPFaults, InjectGrpcFaults, returned, trace; go_unfold;
    next_answer err w1; by exists err.
Qed.

End InjectFacts.

Section InjectTimeoutFacts.
Import disruptors injection.
Context {W : Type} (h : handler ClusterE W).
Variable defaultTimeout : Duration.
Hypothesis default_positive : 0 < defaultTimeout.

(** With a bound to wait for, a target ends up injected exactly when the
    request was accepted and the agent was running within the bound, and the
    wait never exceeds the bound. *)
Lemma injectTarget_bounded (timeout bound : Duration) (b : TargetBehaviour) :
  0 < bound →
  waitPolicy defaultTimeout timeout = WaitAtMost bound →
  (injectTarget defaultTimeout timeout b).2 ≤ bound
  ∧ ((injectTarget defaultTimeout timeout b).1 = Injected
     ↔ accepted b = true ∧ ∃ delay, runningAfter b = Some delay ∧ delay ≤ bound).
Proof.
  intros Hpos Hpol. unfold injectTarget. rewrite Hpol.
  destruct b as [acc ready]. simpl. destruct acc; simpl.
  - destruct ready as [delay |].
    + destruct (Z.leb_spec delay bound); simpl.
      * split; [lia |]. split; [| done].
        intros _. split; [done |]. by exists delay.
      * split; [lia |]. split; [discriminate |].
        intros [_ (delay' & Heq & Hle)]. injection Heq as <-. lia.
    + simpl. split; [lia |]. split; [discriminate |].
      intros [_ (delay' & Heq & _)]. discriminate.
  - split; [lia |]. split; [discriminate |]. intros [Hacc _]. discriminate.
Qed.

Lemma waitPolicy_negative (timeout : Duration) :
  timeout < 0 → waitPolicy defaultTimeout timeout = NoWait.
Proof. intros Hneg. unfold waitPolicy. by destruct (Z.ltb_spec timeout 0); [| lia]. Qed.

Lemma waitPolicy_zero : waitPolicy defaultTimeout 0 = WaitAtMost defaultTimeout.
Proof. reflexivity. Qed.

Lemma waitPolicy_positive (timeout : Duration) :
  0 < timeout → waitPolicy defaultTimeout timeout = WaitAtMost timeout.
Proof.
  intros Hpos. unfold waitPolicy. destruct (Z.ltb_spec timeout 0); [lia |].
  by destruct (Z.eqb_spec timeout 0); [lia |].
Qed.

(** C8: the timeout of the controller that [NewPodDisruptor] builds is the
    [InjectTimeout] option as the caller gave it, and the injection reads it
    in three ways.  Negative: an accepted target counts as injected at once,
    without any wait for the agent.  Zero: the wait is bounded by the fixed
    default.  Positive: the wait is bounded by that value. *)
Theorem InjectTimeout_three_way (ctx : option context_Context) (k8s : kubernetes.k8s)
    (selector : PodSelector) (options : PodDisruptorOptions) (w : W)
    (d : podDisruptor) (err : option error) :
  returned (run h (NewPodDisruptor ctx k8s selector options) w) = (Some d, err) →
  let timeout := ac_timeout (controller d) in
  timeout = InjectTimeout options
  ∧ (timeout < 0 →
       waitPolicy defaultTimeout timeout = NoWait
       ∧ ∀ b, accepted b = true →
              injectTarget defaultTimeout timeout b = (Injected, 0))
  ∧ (timeout = 0 →
       waitPolicy defaultTimeout timeout = WaitAtMost defaultTimeout
       ∧ ∀ b, (injectTarget defaultTimeout timeout b).2 ≤ defaultTimeout
              ∧ ((injectTarget defaultTimeout timeout b).1 = Injected
                 ↔ accepted b = true
                   ∧ ∃ delay, runningAfter b = Some delay ∧ delay ≤ defaultTimeout))
  ∧ (0 < timeout →
       waitPolicy defaultTimeout timeout = WaitAtMost timeout
       ∧ ∀ b, (injectTarget defaultTimeout timeout b).2 ≤ timeout
              ∧ ((injectTarget defaultTimeout timeout b).1 = Injected
                 ↔ accepted b = true
                   ∧ ∃ delay, runningAfter b = Some delay ∧ delay ≤ timeout)).
Proof.
  intros Hd. simpl.
  assert (Hto : ac_timeout (controller d) = InjectTimeout options).
  { revert Hd.
    destruct (NewPodDisruptor_outcomes h ctx k8s selector options w)
      as [Href | helper filter targets e w1 Href Hns
          | helper filter targets e w1 Href Hns | helper filter targets w1 Href Hns];
      unfold returned; simpl; try discriminate.
    by intros [= <- <-]. }
  split; [done |]. clear Hd Hto. generalize (ac_timeout (controller d)).
  intros timeout. split; [| split].
  - intros Hneg. split; [by apply waitPolicy_negative |].
    intros b Hacc. unfold injectTarget.
    by rewrite Hacc, waitPolicy_negative.
  - intros ->. split; [apply waitPolicy_zero |].
    intros b. apply injectTarget_bounded; [done | apply waitPolicy_zero].
  - intros Hpos. split; [by apply waitPolicy_positive |].
    intros b. apply injectTarget_bounded; [done | by apply waitPolicy_positive].
Qed.

End InjectTimeoutFacts.

(** * The code on examples *)

Section Examples.
Import disruptors.


(** A selector whose label maps are empty but not nil is not the empty
    selector of the check: [reflect.DeepEqual] tells it from
    [PodAttributes{}], and the listing is made. *)
Remark selector_with_empty_label_maps_is_listed :
  selector_refused fixture.selector_empty_maps = false
  ∧ trace (run (fixture.scripted fixture.two_pods)
             (NewPodDisruptor fixture.ctx fixture.client fixture.selector_empty_maps
                fixture.options) 0%nat)
    = [Ev (PodHelper_List (k8s_PodHelper fixture.client "") fixture.ctx
             {| filter_Select := Some ∅; filter_Exclude := Some ∅ |})
          (["checkout-0"; "checkout-1"], None);
       Ev (InjectDisruptorAgent
             (NewAgentController fixture.ctx (k8s_PodHelper fixture.client "") ""
                ["checkout-0"; "checkout-1"] 0)) None].
Proof. split; reflexivity. Qed.


(** C2, the code at the failing input: for a selector with labels and an
    empty namespace, the helper that lists the pods is created for the
    namespace "" and the controller is constructed with the namespace "",
    not with [metav1.NamespaceDefault]; the default is only written to the
    local copy of the selector, which is not read again. *)
Theorem NewPodDisruptor_keeps_empty_namespace :
  let out :=
    run (fixture.scripted fixture.two_pods)
      (NewPodDisruptor fixture.ctx fixture.client fixture.selector_no_namespace fixture.options)
      0%nat in
  selector_refused fixture.selector_no_namespace = false
  ∧ concat (map event_namespaces (trace out)) = [""; ""; ""]
  ∧ (∃ d, returned out = (Some d, None)
          ∧ helper_namespace (ac_helper (controller d)) = ""
          ∧ ac_namespace (controller d) = "")
  ∧ metav1_NamespaceDefault ≠ "".
Proof.
  simpl. repeat split; try reflexivity; [| discriminate].
  eexists. repeat split; reflexivity.
Qed.

(** C3 as stated fails.  The fault below has error rate 2 and is injected
    for a duration of zero, so it is malformed on both counts; yet with any
    builder and any collaborators [InjectHTTPFaults] calls [ExecCommand] on
    the built command, and with collaborators that report no error it
    returns nil. *)
Lemma InjectHTTPFaults_executes_malformed_spec :
  (0 <= 0)%Z
  ∧ ¬ (0 <= http_ErrorRate fixture.fault_rate_2
       ∧ http_ErrorRate fixture.fault_rate_2 <= 1)%Q
  ∧ (∀ (B : FaultCmdBuilder) (W : Type) (h : handler ClusterE W) (w : W),
       ∃ answer,
         trace (run h (InjectHTTPFaults fixture.disruptor fixture.fault_rate_2 0
                         fixture.http_options) w)
           = [Ev (ExecCommand (controller fixture.disruptor)
                    (buildHTTPFaultCmd fixture.fault_rate_2 0 fixture.http_options))
                 answer])
  ∧ run (fixture.scripted fixture.two_pods)
        (@InjectHTTPFaults fixture.sub_command fixture.disruptor
           fixture.fault_rate_2 0 fixture.http_options) 0%nat
      = (None, 1%nat,
         [Ev (ExecCommand (controller fixture.disruptor)
                ["xk6-disruptor-agent"; "http"]) None]).
Proof.
  split; [lia |]. split; [| split; [| reflexivity]].
  - intros [_ Hle]. revert Hle. unfold Qle. simpl. lia.
  - intros B W h w. unfold InjectHTTPFaults, trace. go_unfold.
    next_answer err w1. by exists err.
Qed.

(** A fault with error rate 2, injected for a duration of zero, reaches
    [ExecCommand]. *)
Lemma malformed_spec_reaches_ExecCommand_witness :
  malformed 0 (http_ErrorRate fixture.fault_rate_2)
  ∧ malformed 0 (grpc_ErrorRate fixture.grpc_fault_rate_2)
  ∧ ∃ answer,
      trace (run (fixture.scripted fixture.exec_fails)
               (@InjectHTTPFaults fixture.sub_command fixture.disruptor
                  fixture.fault_rate_2 0 fixture.http_options) 0%nat)
        = [Ev (ExecCommand (controller fixture.disruptor)
                 ["xk6-disruptor-agent"; "http"]) answer]
      ∧ returned (run (fixture.scripted fixture.exec_fails)
                    (@InjectHTTPFaults fixture.sub_command fixture.disruptor
                       fixture.fault_rate_2 0 fixture.http_options) 0%nat)
        = answer.
Proof.
  assert (Hm : ∀ rate : Q, malformed 0 rate) by (intros rate; left; lia).
  split; [apply Hm |]. split; [apply Hm |].
  apply (@malformed_spec_reaches_ExecCommand fixture.sub_command nat
           (fixture.scripted fixture.exec_fails) fixture.disruptor 0%nat
           fixture.fault_rate_2 fixture.grpc_fault_rate_2 0
           fixture.http_options fixture.grpc_options (Hm _) (Hm _)).
Defined.

(** A listing that fails makes the construction fail with the same error. *)
Lemma NewPodDisruptor_all_or_nothing_witness :
  returned (run (fixture.scripted fixture.list_fails)
              (NewPodDisruptor fixture.ctx fixture.client fixture.selector_ns1 fixture.options)
              0%nat)
    = (None, Some (Errorf "pods is forbidden")).
Proof.
  apply (proj1 (proj2 (NewPodDisruptor_all_or_nothing
                         (fixture.scripted fixture.list_fails) fixture.ctx fixture.client
                         fixture.selector_ns1 fixture.options 0%nat)))
    with (ev := Ev (PodHelper_List (k8s_PodHelper fixture.client "ns1") fixture.ctx
                      {| filter_Select := Some {[ "app" := "checkout" ]};
                         filter_Exclude := None |})
                   ([], Some (Errorf "pods is forbidden"))).
  - apply list_elem_of_here.
  - reflexivity.
Defined.

(** A namespace in which no pod matches: the injection is still called, on
    zero targets. *)
Lemma NewPodDisruptor_accepts_empty_match_witness :
  ∃ first c answer,
    trace (run (fixture.scripted fixture.no_pods)
             (NewPodDisruptor fixture.ctx fixture.client fixture.selector_ns1 fixture.options)
             0%nat)
      = [first; Ev (InjectDisruptorAgent c) answer]
    ∧ ac_targets c = []
    ∧ returned (run (fixture.scripted fixture.no_pods)
                  (NewPodDisruptor fixture.ctx fixture.client fixture.selector_ns1
                     fixture.options) 0%nat)
      = match answer with
        | None => (Some {| pd_ctx := fixture.ctx; controller := c |}, None)
        | Some e => (None, Some e)
        end.
Proof.
  apply (NewPodDisruptor_accepts_empty_match (fixture.scripted fixture.no_pods)
           fixture.ctx fixture.client fixture.selector_ns1 fixture.options 0%nat);
    reflexivity.
Defined.

(** [InjectTimeout] of -1 with a default of thirty seconds: no wait. *)
Lemma InjectTimeout_three_way_witness :
  ac_timeout (controller fixture.disruptor_no_wait) = -1
  ∧ ∀ b, injection.accepted b = true →
         injection.injectTarget fixture.thirty_seconds
           (ac_timeout (controller fixture.disruptor_no_wait)) b
         = (injection.Injected, 0).
Proof.
  assert (Hdefault : 0 < fixture.thirty_seconds) by reflexivity.
  assert (Hrun : returned (run (fixture.scripted fixture.two_pods)
                   (NewPodDisruptor fixture.ctx fixture.client fixture.selector_ns1
                      fixture.options_no_wait) 0%nat)
                 = (Some fixture.disruptor_no_wait, None)) by reflexivity.
  destruct (InjectTimeout_three_way (fixture.scripted fixture.two_pods)
              fixture.thirty_seconds Hdefault fixture.ctx fixture.client fixture.selector_ns1
              fixture.options_no_wait 0%nat fixture.disruptor_no_wait None Hrun)
    as (Hto & Hneg & _).
  split; [exact Hto |]. apply Hneg. reflexivity.
Defined.

End Examples.

(** * More about package kubernetes *)

Section KubernetesBootstrap.
Import kubernetes.
Context {W : Type} (h : handler ClientE W).

(** X1: each constructor returns an instance with a nil error, or a nil
    instance with an error; never both and never neither. *)
Theorem constructors_return_instance_or_error (c : Constructor) (w : W) :
  (∃ k, returned (run h (construct c) w) = (Some k, None))
  ∨ (∃ e, returned (run h (construct c) w) = (None, Some e)).
Proof. construct_cases c; unfold returned; simpl; eauto. Qed.

(** X2: an error answered by any collaborator but [rest.InClusterConfig]
    ends the construction with a nil instance and that error: as it is for
    client-go's calls, wrapped with the text "error getting kubernetes
    config path: " for [getConfigPath]. *)
Theorem constructors_report_errors (c : Constructor) (w : W)
    (ev : Event ClientE) (e : error) :
  ev ∈ trace (run h (construct c) w) →
  answered_error ev = Some e →
  client_call ev ≠ call_InClusterConfig →
  returned (run h (construct c) w)
    = (None,
       Some match client_call ev with
            | call_getConfigPath => Wrapf "error getting kubernetes config path: " e
            | _ => e
            end).
Proof.
  construct_cases c; unfold returned, trace; simpl; intros Hev Herr Hnot;
    each_event Hev; simpl in *; congruence.
Qed.

(** X3: whatever rate limits the configuration came with, every clientset
    and every discovery client is asked for a configuration with QPS 100 and
    Burst 150, in failing executions too. *)
Theorem clients_are_rate_limited (c : Constructor) (w : W)
    (ev : Event ClientE) (cfg : rest_Config) :
  ev ∈ trace (run h (construct c) w) →
  created_for ev = Some cfg →
  QPS cfg = 100%Q ∧ Burst cfg = 150.
Proof.
  construct_cases c; unfold trace; simpl; intros Hev Hcfg;
    each_event Hev; simpl in *; try discriminate;
    by injection Hcfg as <-.
Qed.

(** X4: the calls of an execution are the beginning of the constructor's
    plan: collaborators are called in a fixed order, none twice, the client
    before the discovery client and the discovery client before the server
    is asked for its version. *)
Theorem constructors_follow_their_plan (c : Constructor) (w : W) :
  ∃ plan, plan ∈ call_plans c
          ∧ (client_call <$> trace (run h (construct c) w)) `prefix_of` plan.
Proof.
  construct_cases c; unfold trace; simpl;
    first [ eexists; split; [apply list_elem_of_here |]; by eexists
          | eexists; split; [apply list_elem_of_further, list_elem_of_here |];
            by eexists ].
Qed.

(** X5: when the in-cluster configuration is there, [New] builds the
    instance from it, as [newWithContext] does, and never looks for a
    kubeconfig. *)
Theorem New_prefers_in_cluster_config (ctx0 : option context_Context) (w w1 : W)
    (cfg : rest_Config) :
  h _ InClusterConfig w = (Ok cfg, w1) →
  returned (run h (New ctx0) w) = returned (run h (newWithContext ctx0 cfg) w1)
  ∧ ∀ ev, ev ∈ trace (run h (New ctx0) w) →
          client_call ev ≠ call_getConfigPath
          ∧ client_call ev ≠ call_BuildConfigFromFlags.
Proof.
  intros Hin. unfold New, newWithContext, checkK8sVersion. go_unfold.
  rewrite Hin. simpl. repeat client_step;
    try match goal with
        | |- context [ string_lt ?a ?b ] => destruct (string_lt a b) eqn:?
        end;
    simpl; (split; [reflexivity |]);
    intros ev Hev; unfold trace in Hev; simpl in Hev;
    each_event Hev; split; discriminate.
Qed.

(** X9: when the server reports a version that the check refuses, every
    constructor returns a nil instance and the unsupported-version error,
    whose text ends with the version as "v<major>.<minor>". *)
Theorem refused_version_is_reported (c : Constructor) (w : W)
    (ev : Event ClientE) (version : version_Info) :
  ev ∈ trace (run h (construct c) w) →
  reported_version ev = Some version →
  string_lt (semver version) "v1.23" = true →
  returned (run h (construct c) w)
    = (None,
       Some (Errorf ("unsupported Kubernetes version. Expected >= v1.23 but actual is "
                     +:+ semver version))).
Proof.
  construct_cases c; unfold returned, trace; simpl; intros Hev Hver Hlt;
    each_event Hev; simpl in *; try discriminate;
    injection Hver as <-; congruence.
Qed.

(** X10: the helpers of an instance that a constructor handed out.
    [Helpers()] is [NamespacedHelpers("default")]; [NamespacedHelpers]
    passes the namespace on as given, with the instance's client, a non-nil
    context and the configuration with QPS 100 and Burst 150. *)
Theorem helpers_of_an_instance (c : Constructor) (w : W) (k : k8s)
    (err : option error) (namespace : string) :
  returned (run h (construct c) w) = (Some k, err) →
  Helpers k = NamespacedHelpers k "default"
  ∧ helpers_namespace (NamespacedHelpers k namespace) = namespace
  ∧ helpers_client (NamespacedHelpers k namespace) = Interface k
  ∧ helpers_ctx (NamespacedHelpers k namespace) ≠ None
  ∧ QPS (helpers_config (NamespacedHelpers k namespace)) = 100%Q
  ∧ Burst (helpers_config (NamespacedHelpers k namespace)) = 150.
Proof.
  construct_cases c; unfold returned; simpl; try discriminate;
    intros [= <- <-]; simpl; repeat split; try done;
    match goal with
    | |- context [ match ?o with _ => _ end ] => by destruct o
    end.
Qed.

(** X16: when there is no in-cluster configuration, [New] asks
    [getConfigPath] for a kubeconfig.  With a path it returns what
    [NewFromConfig] returns for that path and the caller's context; with an
    error it stops there, returns that error wrapped, and creates no
    client.  The error of [rest.InClusterConfig] is not passed on. *)
Theorem New_falls_back_to_kubeconfig (ctx0 : option context_Context) (w w1 : W)
    (e : error) :
  h _ InClusterConfig w = (Err e, w1) →
  match h _ getConfigPath w1 with
  | (Ok path, w2) =>
      returned (run h (New ctx0) w)
        = returned (run h (NewFromConfig
                             {| Config_Context := ctx0; Kubeconfig := path |}) w2)
  | (Err e2, w2) =>
      run h (New ctx0) w
        = ((None, Some (Wrapf "error getting kubernetes config path: " e2)), w2,
           [Ev InClusterConfig (Err e); Ev getConfigPath (Err e2)])
  end.
Proof.
  intros Hin. unfold New. generalize NewFromConfig. intros nfc. go_unfold.
  rewrite Hin. simpl.
  destruct (h _ getConfigPath w1) as [[path | e2] w2]; simpl; [| done].
  unfold returned. by destruct (run h (nfc _) w2) as [[r w3] tr].
Qed.

End KubernetesBootstrap.

(** * What the version check accepts *)

Section VersionCheck.
Import kubernetes.
Context {W : Type} (h : handler ClientE W).

(** On major "1" and a minor that starts with two digits, the order of the
    strings is the order of the two-digit numbers, whatever follows. *)
Lemma string_lt_two_digits (tens units : nat) (suffix : string) :
  (tens < 10)%nat → (units < 10)%nat →
  string_lt
    (semver {| Major := "1";
               Minor := String (digit tens) (String (digit units) suffix) |})
    "v1.23"
  = (10 * tens + units <? 23)%nat.
Proof.
  intros Ht Hu.
  assert (Ht' : (tens = 0 ∨ tens = 1 ∨ tens = 2 ∨ tens = 3 ∨ tens = 4 ∨ tens = 5
                 ∨ tens = 6 ∨ tens = 7 ∨ tens = 8 ∨ tens = 9)%nat) by lia.
  assert (Hu' : (units = 0 ∨ units = 1 ∨ units = 2 ∨ units = 3 ∨ units = 4
                 ∨ units = 5 ∨ units = 6 ∨ units = 7 ∨ units = 8 ∨ units = 9)%nat)
    by lia.
  clear Ht Hu.
  repeat match goal with
         | H : _ ∨ _ |- _ => destruct H as [-> | H]
         end; subst; try reflexivity; by destruct suffix.
Qed.

(** X6: with major "1", the check reads the first two characters of the
    minor.  When they are digits, the version is accepted exactly when the
    number they write is at least 23; what follows them (the "+" of a
    managed cluster, a third digit) plays no part. *)
Theorem checkK8sVersion_reads_two_digits (config : rest_Config) (w w1 w2 : W)
    (d : DiscoveryClient) (tens units : nat) (suffix : string) :
  (tens < 10)%nat → (units < 10)%nat →
  h _ (NewDiscoveryClientForConfig config) w = (Ok d, w1) →
  h _ (ServerVersion d) w1
    = (Ok {| Major := "1";
             Minor := String (digit tens) (String (digit units) suffix) |}, w2) →
  returned (run h (checkK8sVersion config) w) = None ↔ (23 ≤ 10 * tens + units)%nat.
Proof.
  intros Ht Hu Hd Hv. rewrite (checkK8sVersion_decides h config w w1 w2 d _ Hd Hv).
  rewrite string_lt_two_digits by done.
  destruct (Nat.ltb_spec (10 * tens + units) 23); split; intros; try lia; done.
Qed.

(** X7: with major "1" and a minor of one digit, the version is accepted
    exactly when the digit is 3 or more. *)
Theorem checkK8sVersion_on_one_digit (config : rest_Config) (w w1 w2 : W)
    (d : DiscoveryClient) (n : nat) :
  (n < 10)%nat →
  h _ (NewDiscoveryClientForConfig config) w = (Ok d, w1) →
  h _ (ServerVersion d) w1
    = (Ok {| Major := "1"; Minor := String (digit n) EmptyString |}, w2) →
  returned (run h (checkK8sVersion config) w) = None ↔ (3 ≤ n)%nat.
Proof.
  intros Hn Hd Hv. rewrite (checkK8sVersion_decides h config w w1 w2 d _ Hd Hv).
  assert (Hn' : (n = 0 ∨ n = 1 ∨ n = 2 ∨ n = 3 ∨ n = 4 ∨ n = 5 ∨ n = 6 ∨ n = 7
                 ∨ n = 8 ∨ n = 9)%nat) by lia.
  clear Hn Hv.
  repeat match goal with
         | H : _ ∨ _ |- _ => destruct H as [-> | H]
         end; subst; simpl; split; intros; try lia; done.
Qed.

(** X8: a major that starts with a digit other than 1 decides alone: from
    2 on the version is accepted, with 0 it is refused, whatever the rest of
    the major and the minor are. *)
Theorem checkK8sVersion_on_other_majors (config : rest_Config) (w w1 w2 : W)
    (d : DiscoveryClient) (m : nat) (rest minor : string) :
  (m < 10)%nat → m ≠ 1%nat →
  h _ (NewDiscoveryClientForConfig config) w = (Ok d, w1) →
  h _ (ServerVersion d) w1
    = (Ok {| Major := String (digit m) rest; Minor := minor |}, w2) →
  returned (run h (checkK8sVersion config) w) = None ↔ (2 ≤ m)%nat.
Proof.
  intros Hm Hne Hd Hv. rewrite (checkK8sVersion_decides h config w w1 w2 d _ Hd Hv).
  assert (Hm' : (m = 0 ∨ m = 2 ∨ m = 3 ∨ m = 4 ∨ m = 5 ∨ m = 6 ∨ m = 7
                 ∨ m = 8 ∨ m = 9)%nat) by lia.
  clear Hm Hne Hv.
  repeat match goal with
         | H : _ ∨ _ |- _ => destruct H as [-> | H]
         end; subst; simpl; split; intros; try lia; done.
Qed.

End VersionCheck.

(** * More about the pod disruptor *)

Section DisruptorConstruction.
Import disruptors.
Context {W : Type} (h : handler ClusterE W).

Lemma selector_accepted_iff (selector : PodSelector) :
  selector_refused selector = false
  ↔ Namespace selector ≠ ""
    ∨ Labels (Select selector) ≠ None
    ∨ Labels (Exclude selector) ≠ None.
Proof.
  destruct selector as [ns [sel] [exc]]. unfold selector_refused, DeepEqual. simpl.
  destruct (String.eqb_spec ns "") as [-> | Hne];
    destruct sel as [m1 |], exc as [m2 |]; simpl; split;
    first [ done | intros [? | [? | ?]]; done | intros _; by left
          | intros _; right; by left | intros _; right; by right ].
Qed.

(** X11: [NewPodDisruptor] returns a disruptor with a nil error, or a nil
    disruptor with an error; never both and never neither. *)
Theorem NewPodDisruptor_returns_disruptor_or_error (ctx : option context_Context)
    (k8s : kubernetes.k8s) (selector : PodSelector) (options : PodDisruptorOptions)
    (w : W) :
  (∃ d, returned (run h (NewPodDisruptor ctx k8s selector options) w) = (Some d, None))
  ∨ (∃ e, returned (run h (NewPodDisruptor ctx k8s selector options) w)
          = (None, Some e)).
Proof.
  destruct (NewPodDisruptor_outcomes h ctx k8s selector options w);
    unfold returned; simpl; eauto.
Qed.

(** X12: [NewPodDisruptor] lists the pods at most once and then injects
    the agent at most once, never the other way round; it never executes a
    command and never asks for the targets; and when the listing answers an
    error, that call is the only one: no injection is attempted. *)
Theorem NewPodDisruptor_call_discipline (ctx : option context_Context)
    (k8s : kubernetes.k8s) (selector : PodSelector) (options : PodDisruptorOptions)
    (w : W) :
  let out := run h (NewPodDisruptor ctx k8s selector options) w in
  (call_kind <$> trace out) `prefix_of` [listing; injection]
  ∧ (∀ ev e, ev ∈ trace out → call_kind ev = listing → event_error ev = Some e →
       trace out = [ev]).
Proof.
  simpl.
  destruct (NewPodDisruptor_outcomes h ctx k8s selector options w);
    unfold trace; simpl; (split; [by eexists |]);
    intros ev e' Hev Hkind Herr; each_event Hev; simpl in *; done.
Qed.

(** X13: [NewPodDisruptor] reaches the listing exactly when the selector
    names a namespace or has a non-nil label map in [Select] or [Exclude];
    a label map without entries counts, as long as it is not nil. *)
Theorem NewPodDisruptor_lists_iff_selector_not_empty (ctx : option context_Context)
    (k8s : kubernetes.k8s) (selector : PodSelector) (options : PodDisruptorOptions)
    (w : W) :
  trace (run h (NewPodDisruptor ctx k8s selector options) w) ≠ []
  ↔ Namespace selector ≠ ""
    ∨ Labels (Select selector) ≠ None
    ∨ Labels (Exclude selector) ≠ None.
Proof.
  rewrite <- selector_accepted_iff.
  destruct (NewPodDisruptor_outcomes h ctx k8s selector options w);
    unfold trace; simpl; split; intros; try done; congruence.
Qed.

(** X14: for a selector that names a namespace, the first call lists the
    pods with a helper made for the given client and that namespace, with
    the caller's context and with the label maps of [Select] and [Exclude]
    as they are in the selector; and no other namespace reaches the helper
    or the controller. *)
Theorem NewPodDisruptor_lists_in_the_selector_namespace
    (ctx : option context_Context) (k8s : kubernetes.k8s) (selector : PodSelector)
    (options : PodDisruptorOptions) (w : W) :
  Namespace selector ≠ "" →
  (∃ answer rest,
     trace (run h (NewPodDisruptor ctx k8s selector options) w)
       = Ev (PodHelper_List (k8s_PodHelper k8s (Namespace selector)) ctx
               {| filter_Select := Labels (Select selector);
                  filter_Exclude := Labels (Exclude selector) |}) answer :: rest)
  ∧ (∀ ev ns, ev ∈ trace (run h (NewPodDisruptor ctx k8s selector options) w) →
              ns ∈ event_namespaces ev → ns = Namespace selector).
Proof.
  intros Hns. split.
  - unfold NewPodDisruptor, trace.
    destruct (String.eqb_spec (Namespace selector) ""); [done |]. simpl.
    go_unfold. next_answer r w1. destruct r as [targets [e |]]; simpl; [by eauto |].
    next_answer r w2. destruct r; simpl; by eauto.
  - intros ev ns. apply NewPodDisruptor_passes_namespace_on.
Qed.

End DisruptorConstruction.

Section DisruptorUse.
Import disruptors.
Context `{FaultCmdBuilder} {W : Type} (h : handler ClusterE W).

(** X15: a disruptor that [NewPodDisruptor] returned acts on the pods that
    were listed when it was built.  [Targets], [InjectHTTPFaults] and
    [InjectGrpcFaults] each make one call, to the controller on which the
    agent was injected and whose targets are the listing's answer, in its
    order; none of them lists pods again. *)
Theorem disruptor_acts_on_the_listed_pods (ctx : option context_Context)
    (k8s : kubernetes.k8s) (selector : PodSelector) (options : PodDisruptorOptions)
    (w : W) (d : podDisruptor) (err : option error) :
  returned (run h (NewPodDisruptor ctx k8s selector options) w) = (Some d, err) →
  ∃ c first,
    trace (run h (NewPodDisruptor ctx k8s selector options) w)
      = [first; Ev (InjectDisruptorAgent c) None]
    ∧ listed first = Some (ac_targets c, None)
    ∧ (∀ w', ∃ answer,
         run h (Targets d) w'
           = (answer, (h _ (controller_Targets c) w').2,
              [Ev (controller_Targets c) answer]))
    ∧ (∀ w' fault duration o, ∃ answer,
         trace (run h (InjectHTTPFaults d fault duration o) w')
           = [Ev (ExecCommand c (buildHTTPFaultCmd fault duration o)) answer])
    ∧ (∀ w' fault duration o, ∃ answer,
         trace (run h (InjectGrpcFaults d fault duration o) w')
           = [Ev (ExecCommand c (buildGrpcFaultCmd fault duration o)) answer]).
Proof.
  destruct (NewPodDisruptor_outcomes h ctx k8s selector options w)
    as [Href | helper filter targets e w1 Href Hns
        | helper filter targets e w1 Href Hns | helper filter targets w1 Href Hns];
    unfold returned; simpl; try discriminate.
  intros [= <- <-]. eexists _, _. split; [reflexivity |]. split; [reflexivity |].
  unfold Targets, InjectHTTPFaults, InjectGrpcFaults, trace. go_unfold.
  repeat split; intros.
  - destruct (h _ _ w') as [answer w2]. by exists answer.
  - next_answer answer w2. by exists answer.
  - next_answer answer w2. by exists answer.
Qed.

End DisruptorUse.

(** * More of the code on examples *)

Section MoreExamples.
Import kubernetes disruptors.

(** The API server is down: the error of [ServerVersion] comes back. *)
Lemma constructors_report_errors_witness :
  returned (run (fixture.scripted_client fixture.server_down)
              (construct (via_New None)) 0%nat)
    = (None, Some (Errorf "connection refused")).
Proof.
  apply (constructors_report_errors (fixture.scripted_client fixture.server_down)
           (via_New None) 0%nat
           (Ev (ServerVersion
                  {| discovery_config :=
                       {| Host := "https://10.0.0.1:6443"; QPS := 100; Burst := 150 |} |})
               (Err (Errorf "connection refused")))
           (Errorf "connection refused")).
  - in_trace.
  - reflexivity.
  - discriminate.
Defined.

(** A kubeconfig with QPS 5 and Burst 10: the client is asked for 100 and 150. *)
Lemma clients_are_rate_limited_witness :
  Ev (NewForConfig {| Host := "/home/k6/.kube/config"; QPS := 100; Burst := 150 |})
     (Ok {| clientset_config :=
              {| Host := "/home/k6/.kube/config"; QPS := 100; Burst := 150 |} |})
    ∈ trace (run (fixture.cluster_reporting fixture.v1_27)
               (construct (via_NewFromKubeconfig "/home/k6/.kube/config")) ())
  ∧ QPS {| Host := "/home/k6/.kube/config"; QPS := 100; Burst := 150 |} = 100%Q
  ∧ Burst {| Host := "/home/k6/.kube/config"; QPS := 100; Burst := 150 |} = 150.
Proof.
  split; [in_trace |].
  apply (clients_are_rate_limited (fixture.cluster_reporting fixture.v1_27)
           (via_NewFromKubeconfig "/home/k6/.kube/config") ()
           (Ev (NewForConfig
                  {| Host := "/home/k6/.kube/config"; QPS := 100; Burst := 150 |})
               (Ok {| clientset_config :=
                        {| Host := "/home/k6/.kube/config"; QPS := 100;
                           Burst := 150 |} |}))).
  - in_trace.
  - reflexivity.
Defined.

(** Inside a pod, [New] is [newWithContext] on the in-cluster configuration. *)
Lemma New_prefers_in_cluster_config_witness :
  returned (run (fixture.scripted_client (fixture.inside_cluster fixture.v1_27))
              (New None) 0%nat)
    = returned (run (fixture.scripted_client (fixture.inside_cluster fixture.v1_27))
                  (newWithContext None fixture.kubeconfig_config) 1%nat).
Proof.
  apply (New_prefers_in_cluster_config
           (fixture.scripted_client (fixture.inside_cluster fixture.v1_27))
           None 0%nat 1%nat fixture.kubeconfig_config).
  reflexivity.
Defined.

(** A managed cluster that reports minor "27+" passes the check. *)
Lemma checkK8sVersion_reads_two_digits_witness :
  returned (run (fixture.scripted_client (fixture.inside_cluster fixture.v1_27_plus))
              (checkK8sVersion fixture.kubeconfig_config) 0%nat)
    = None.
Proof.
  apply (checkK8sVersion_reads_two_digits
           (fixture.scripted_client (fixture.inside_cluster fixture.v1_27_plus))
           fixture.kubeconfig_config 0%nat 1%nat 2%nat
           {| discovery_config := fixture.kubeconfig_config |} 2 7 "+");
    first [ reflexivity | lia ].
Defined.

(** Minor "5" passes the check. *)
Lemma checkK8sVersion_on_one_digit_witness :
  returned (run (fixture.scripted_client (fixture.inside_cluster fixture.v1_5))
              (checkK8sVersion fixture.kubeconfig_config) 0%nat)
    = None.
Proof.
  apply (checkK8sVersion_on_one_digit
           (fixture.scripted_client (fixture.inside_cluster fixture.v1_5))
           fixture.kubeconfig_config 0%nat 1%nat 2%nat
           {| discovery_config := fixture.kubeconfig_config |} 5);
    first [ reflexivity | lia ].
Defined.

(** Major "2", minor "0" passes the check. *)
Lemma checkK8sVersion_on_other_majors_witness :
  returned (run (fixture.scripted_client (fixture.inside_cluster fixture.v2_0))
              (checkK8sVersion fixture.kubeconfig_config) 0%nat)
    = None.
Proof.
  apply (checkK8sVersion_on_other_majors
           (fixture.scripted_client (fixture.inside_cluster fixture.v2_0))
           fixture.kubeconfig_config 0%nat 1%nat 2%nat
           {| discovery_config := fixture.kubeconfig_config |} 2 "" "0");
    first [ reflexivity | lia ].
Defined.

(** A cluster that reports v1.22 gets no instance. *)
Lemma refused_version_is_reported_witness :
  returned (run (fixture.cluster_reporting fixture.v1_22)
              (construct (via_NewFromKubeconfig "/home/k6/.kube/config")) ())
    = (None,
       Some (Errorf
               "unsupported Kubernetes version. Expected >= v1.23 but actual is v1.22")).
Proof.
  apply (refused_version_is_reported (fixture.cluster_reporting fixture.v1_22)
           (via_NewFromKubeconfig "/home/k6/.kube/config") ()
           (Ev (ServerVersion
                  {| discovery_config :=
                       {| Host := "/home/k6/.kube/config"; QPS := 100; Burst := 150 |} |})
               (Ok fixture.v1_22))
           fixture.v1_22).
  - in_trace.
  - reflexivity.
  - reflexivity.
Defined.

(** The helpers of the instance built from a kubeconfig. *)
Lemma helpers_of_an_instance_witness :
  Helpers fixture.instance_from_kubeconfig
    = NamespacedHelpers fixture.instance_from_kubeconfig "default"
  ∧ helpers_namespace (NamespacedHelpers fixture.instance_from_kubeconfig "") = ""
  ∧ helpers_client (NamespacedHelpers fixture.instance_from_kubeconfig "")
    = Interface fixture.instance_from_kubeconfig
  ∧ helpers_ctx (NamespacedHelpers fixture.instance_from_kubeconfig "") ≠ None
  ∧ QPS (helpers_config (NamespacedHelpers fixture.instance_from_kubeconfig ""))
    = 100%Q
  ∧ Burst (helpers_config (NamespacedHelpers fixture.instance_from_kubeconfig ""))
    = 150.
Proof.
  apply (helpers_of_an_instance (fixture.cluster_reporting fixture.v1_27)
           (via_NewFromKubeconfig "/home/k6/.kube/config") ()
           fixture.instance_from_kubeconfig None "").
  reflexivity.
Defined.

(** A selector with a namespace and no labels lists that namespace with
    nil label maps. *)
Lemma NewPodDisruptor_lists_in_the_selector_namespace_witness :
  ∃ answer rest,
    trace (run (fixture.scripted fixture.two_pods)
             (NewPodDisruptor fixture.ctx fixture.client
                fixture.selector_namespace_only fixture.options) 0%nat)
      = Ev (PodHelper_List (k8s_PodHelper fixture.client "ns1") fixture.ctx
              {| filter_Select := None; filter_Exclude := None |}) answer :: rest.
Proof.
  apply (NewPodDisruptor_lists_in_the_selector_namespace
           (fixture.scripted fixture.two_pods) fixture.ctx fixture.client
           fixture.selector_namespace_only fixture.options 0%nat).
  discriminate.
Defined.

(** The disruptor built on two pods asks its controller for them. *)
Lemma disruptor_acts_on_the_listed_pods_witness :
  ∃ c first,
    trace (run (fixture.scripted fixture.two_pods)
             (NewPodDisruptor fixture.ctx fixture.client fixture.selector_ns1
                fixture.options_no_wait) 0%nat)
      = [first; Ev (InjectDisruptorAgent c) None]
    ∧ listed first = Some (ac_targets c, None)
    ∧ ∀ w', ∃ answer,
        run (fixture.scripted fixture.two_pods) (Targets fixture.disruptor_no_wait) w'
          = (answer,
             (fixture.scripted fixture.two_pods _ (controller_Targets c) w').2,
             [Ev (controller_Targets c) answer]).
Proof.
  destruct (@disruptor_acts_on_the_listed_pods fixture.sub_command nat
              (fixture.scripted fixture.two_pods) fixture.ctx fixture.client
              fixture.selector_ns1 fixture.options_no_wait 0%nat
              fixture.disruptor_no_wait None eq_refl)
    as (c & first & Htrace & Hlisted & Htargets & _).
  exists c, first. repeat split; assumption.
Defined.

(** Outside a cluster and with no kubeconfig: two calls, no client. *)
Lemma New_falls_back_to_kubeconfig_witness :
  run (fixture.scripted_client fixture.no_config) (New None) 0%nat
    = ((None, Some (Wrapf "error getting kubernetes config path: "
                      (Errorf "no home directory"))), 2%nat,
       [Ev InClusterConfig (Err (Errorf "not running in a cluster"));
        Ev getConfigPath (Err (Errorf "no home directory"))]).
Proof.
  apply (New_falls_back_to_kubeconfig (fixture.scripted_client fixture.no_config)
           None 0%nat 1%nat (Errorf "not running in a cluster")).
  reflexivity.
Defined.

End MoreExamples.
